(** * Checkpoint subsystem of gemini-cli: Storage paths and the shadow Git service

    A shallow embedding of
      - [Storage] (config/storage.ts): the global directory, the per-project
        temp and history directories keyed by a SHA-256 fingerprint;
      - [GitService] (services/gitService.ts): the shadow repository used for
        checkpoints.

    The platform is modelled explicitly: POSIX [node:path], [node:crypto]'s
    SHA-256, a flat file system with read and write permissions, and the
    version-control engine reached through simple-git. *)

From Stdlib Require Import NArith List Ascii String Lia Bool.
From stdpp Require Import base option gmap strings list fin_maps.

Open Scope string_scope.
Open Scope list_scope.

(** ** SHA-256 (FIPS 180-4), as [crypto.createHash('sha256')] computes it *)

Module Sha256.
Open Scope N_scope.

Definition mask32 : N := 0xFFFFFFFF.
Definition wrap32 (x : N) : N := N.land x mask32.
Definition add32 (a b : N) : N := wrap32 (a + b).
Definition rotr (n x : N) : N :=
  wrap32 (N.lor (N.shiftr x n) (N.shiftl x (32 - n))).
Definition shr (n x : N) : N := N.shiftr x n.
Definition not32 (x : N) : N := N.lxor x mask32.

Definition Ch (x y z : N) : N := N.lxor (N.land x y) (N.land (not32 x) z).
Definition Maj (x y z : N) : N :=
  N.lxor (N.lxor (N.land x y) (N.land x z)) (N.land y z).
Definition bsig0 (x : N) : N := N.lxor (N.lxor (rotr 2 x) (rotr 13 x)) (rotr 22 x).
Definition bsig1 (x : N) : N := N.lxor (N.lxor (rotr 6 x) (rotr 11 x)) (rotr 25 x).
Definition ssig0 (x : N) : N := N.lxor (N.lxor (rotr 7 x) (rotr 18 x)) (shr 3 x).
Definition ssig1 (x : N) : N := N.lxor (N.lxor (rotr 17 x) (rotr 19 x)) (shr 10 x).

(** The round constants are the first thirty-two bits of the fractional parts
    of the cube roots of the first sixty-four primes; the initial hash value
    takes the square roots of the first eight. *)
Definition primes : list N :=
  [2; 3; 5; 7; 11; 13; 17; 19; 23; 29; 31; 37; 41; 43; 47; 53; 59; 61; 67; 71;
   73; 79; 83; 89; 97; 101; 103; 107; 109; 113; 127; 131; 137; 139; 149; 151;
   157; 163; 167; 173; 179; 181; 191; 193; 197; 199; 211; 223; 227; 229; 233;
   239; 241; 251; 257; 263; 269; 271; 277; 281; 283; 293; 307; 311].

(** The integer cube root, one bit at a time from the top. *)
Fixpoint cube_root (bits : nat) (n r : N) : N :=
  match bits with
  | O => r
  | S b =>
      let c := r + 2 ^ N.of_nat b in
      if c * c * c <=? n then cube_root b n c else cube_root b n r
  end.

Definition K : list N :=
  map (fun p => wrap32 (cube_root 36 (p * 2 ^ 96) 0)) primes.

Definition H0 : list N :=
  map (fun p => wrap32 (N.sqrt (p * 2 ^ 64))) (firstn 8 primes).

(** Padding: the byte 0x80, zero bytes up to 56 modulo 64, then the bit length
    as eight big-endian bytes. *)
Definition be_bytes (count : nat) (x : N) : list N :=
  map (fun i => N.land (N.shiftr x (8 * N.of_nat i)) 0xFF) (rev (seq 0 count)).

Definition pad (msg : list N) : list N :=
  let len := length msg in
  let zeros := ((64 - ((len + 9) mod 64)) mod 64)%nat in
  (msg ++ [0x80] ++ repeat 0 zeros ++ be_bytes 8 (8 * N.of_nat len))%list.

Fixpoint words_of_bytes (bs : list N) : list N :=
  match bs with
  | b0 :: b1 :: b2 :: b3 :: rest =>
      (N.shiftl b0 24 + N.shiftl b1 16 + N.shiftl b2 8 + b3) :: words_of_bytes rest
  | _ => []
  end.

Fixpoint chunks {A} (n : nat) (fuel : nat) (l : list A) : list (list A) :=
  match fuel with
  | O => []
  | S fuel' =>
      match l with
      | [] => []
      | _ => firstn n l :: chunks n fuel' (skipn n l)
      end
  end.

(** The message schedule, kept newest word first: [w] holds W(t-1), W(t-2), ... *)
Definition next_w (w : list N) : N :=
  add32 (add32 (ssig1 (nth 1 w 0)) (nth 6 w 0))
        (add32 (ssig0 (nth 14 w 0)) (nth 15 w 0)).

Fixpoint extend (n : nat) (w : list N) : list N :=
  match n with
  | O => w
  | S n' => extend n' (next_w w :: w)
  end.

Definition schedule (block : list N) : list N := rev (extend 48 (rev block)).

Record regs := Regs { ra : N; rb : N; rc : N; rd : N; re : N; rf : N; rg : N; rh : N }.

Definition round (r : regs) (kw : N * N) : regs :=
  let '(k, w) := kw in
  let t1 := add32 (add32 (add32 (add32 (rh r) (bsig1 (re r))) (Ch (re r) (rf r) (rg r))) k) w in
  let t2 := add32 (bsig0 (ra r)) (Maj (ra r) (rb r) (rc r)) in
  Regs (add32 t1 t2) (ra r) (rb r) (rc r) (add32 (rd r) t1) (re r) (rf r) (rg r).

Definition regs_of (h : list N) : regs :=
  Regs (nth 0 h 0) (nth 1 h 0) (nth 2 h 0) (nth 3 h 0)
       (nth 4 h 0) (nth 5 h 0) (nth 6 h 0) (nth 7 h 0).

Definition list_of (r : regs) : list N :=
  [ra r; rb r; rc r; rd r; re r; rf r; rg r; rh r].

Definition compress (h : list N) (block : list N) : list N :=
  let r := fold_left round (combine K (schedule block)) (regs_of h) in
  map (fun p => add32 (fst p) (snd p)) (combine h (list_of r)).

Definition digest_words (msg : list N) : list N :=
  let ws := words_of_bytes (pad msg) in
  fold_left compress (chunks 16 (length ws) ws) H0.

Definition hex_digit (d : N) : ascii :=
  if d <? 10 then ascii_of_N (48 + d) else ascii_of_N (87 + d).

Definition hex_word (w : N) : list ascii :=
  map (fun i => hex_digit (N.land (N.shiftr w (4 * N.of_nat i)) 0xF)) (rev (seq 0 8)).

Definition bytes_of_string (s : string) : list N :=
  map N_of_ascii (list_ascii_of_string s).

(** [createHash('sha256').update(s).digest('hex')]: the string is taken as its
    bytes, the digest is rendered as 64 lower-case hexadecimal digits. *)
Definition hexdigest (s : string) : string :=
  string_of_list_ascii (flat_map hex_word (digest_words (bytes_of_string s))).

End Sha256.

(** ** [node:path], POSIX flavour

    Paths are strings; the separator is the slash.  [normalizeString] is the
    helper behind [path.normalize], [path.join] and [path.resolve]: it drops
    empty and single-dot segments and resolves double-dot segments against the
    segments already kept. *)

Module Path.

Definition slash : ascii := "/"%char.

(** The segments between slashes; a string without slash is its only segment. *)
Fixpoint segments (s : string) : list string :=
  match s with
  | EmptyString => [""]
  | String c s' =>
      if Ascii.eqb c slash then "" :: segments s'
      else match segments s' with
           | seg :: rest => String c seg :: rest
           | [] => [String c ""]
           end
  end.

(** One segment against the stack of kept segments (innermost first). *)
Definition step (allowAboveRoot : bool) (stack : list string) (seg : string)
  : list string :=
  if String.eqb seg "" || String.eqb seg "." then stack
  else if String.eqb seg ".." then
    match stack with
    | top :: rest =>
        if String.eqb top ".." then
          (if allowAboveRoot then ".." :: stack else stack)
        else rest
    | [] => if allowAboveRoot then [".."] else []
    end
  else seg :: stack.

Definition normalizeString (path : string) (allowAboveRoot : bool) : string :=
  String.concat "/" (rev (fold_left (step allowAboveRoot) (segments path) [])).

Definition isAbsolute (path : string) : bool :=
  match path with
  | String c _ => Ascii.eqb c slash
  | EmptyString => false
  end.

Fixpoint endsWithSlash (path : string) : bool :=
  match path with
  | EmptyString => false
  | String c EmptyString => Ascii.eqb c slash
  | String _ rest => endsWithSlash rest
  end.

Definition normalize (path : string) : string :=
  if String.eqb path "" then "."
  else
    let abs := isAbsolute path in
    let trailingSeparator := endsWithSlash path in
    let p := normalizeString path (negb abs) in
    if String.eqb p "" then
      (if abs then "/" else if trailingSeparator then "./" else ".")
    else
      let p := if trailingSeparator then p +:+ "/" else p in
      if abs then "/" +:+ p else p.

(** [path.join(...args)]: the non-empty arguments joined by slashes, then
    normalized; with nothing to join the result is the single dot. *)
Definition joined (args : list string) : option string :=
  fold_left (fun acc arg =>
               if String.eqb arg "" then acc
               else match acc with
                    | None => Some arg
                    | Some j => Some (j +:+ "/" +:+ arg)
                    end) args None.

Definition join (args : list string) : string :=
  match joined args with
  | None => "."
  | Some j => normalize j
  end.

(** [path.resolve(...args)]: arguments are taken right to left until an
    absolute one is met; the working directory is the last resort. *)
Fixpoint resolve_loop (rargs : list string) (cwd : string) (resolvedPath : string)
  : string * bool :=
  match rargs with
  | [] =>
      if String.eqb cwd "" then (resolvedPath, false)
      else (cwd +:+ "/" +:+ resolvedPath, isAbsolute cwd)
  | p :: rest =>
      if String.eqb p "" then resolve_loop rest cwd resolvedPath
      else if isAbsolute p then (p +:+ "/" +:+ resolvedPath, true)
      else resolve_loop rest cwd (p +:+ "/" +:+ resolvedPath)
  end.

Definition resolve (cwd : string) (args : list string) : string :=
  let '(resolvedPath, resolvedAbsolute) := resolve_loop (rev args) cwd "" in
  let p := normalizeString resolvedPath (negb resolvedAbsolute) in
  if resolvedAbsolute then "/" +:+ p
  else if String.eqb p "" then "." else p.

End Path.

(** ** The platform: host, file system, errors

    A location is the list of components of an absolute path.  [locate]
    resolves a path string the way the operating system does, against the
    working directory, by the same segment walk as [path.resolve] (symbolic
    links are not modelled). *)

Abbreviation loc := (list string).

Record host := Host {
  homedir : string;   (* os.homedir(); empty when none can be determined *)
  tmpdir : string;    (* os.tmpdir() *)
  cwd : string        (* process.cwd() *)
}.

Definition locate (h : host) (p : string) : loc :=
  let '(resolvedPath, _) := Path.resolve_loop [p] (cwd h) "" in
  rev (fold_left (Path.step false) (Path.segments resolvedPath) []).

Inductive node :=
| File (readable : bool) (content : string)
| Dir (writable : bool).

(** Values that can be thrown.  The first three are instances of [Error];
    [NodeError] carries the [code] property of system errors. *)
Inductive error :=
| NodeError (code : string) (message : string)
| GitError (message : string)
| PlainError (message : string)
| NonError (value : string).

Definition instanceofError (e : error) : bool :=
  match e with NonError _ => false | _ => true end.

Definition message (e : error) : string :=
  match e with
  | NodeError _ m | GitError m | PlainError m => m
  | NonError _ => ""
  end.

(** Modelled from the spec: [isNodeError] of utils/errors.js is not among the
    sources.  The spec separates the missing-file failure from every other
    read failure by the error's code, so the helper recognises the errors that
    carry a code. *)
Definition isNodeError (e : error) : bool :=
  match e with NodeError _ _ => true | _ => false end.

Definition code (e : error) : string :=
  match e with NodeError c _ => c | _ => "" end.

Inductive result (A : Type) :=
| Ok (a : A)
| Err (e : error).
Arguments Ok {A} a.
Arguments Err {A} e.

(** The version-control store: one repository per metadata directory.  A
    commit records its message, the text of the user-level configuration file
    the engine read for the identity and signing policy, and the tracked
    files with their contents.  Commits are kept oldest first. *)
Record commit_record := Commit {
  c_message : string;
  c_config : option string;
  c_tree : gmap loc string
}.

Record repo := Repo {
  r_branch : string;
  r_commits : list commit_record;
  r_index : gmap loc string
}.

Record world := World {
  w_host : host;
  w_git_installed : bool;
  w_files : gmap loc node;
  w_repos : gmap loc repo
}.

Definition set_files (w : world) (fs : gmap loc node) : world :=
  World (w_host w) (w_git_installed w) fs (w_repos w).
Definition set_repos (w : world) (rs : gmap loc repo) : world :=
  World (w_host w) (w_git_installed w) (w_files w) rs.

(** Asynchronous functions run to completion one after the other: a
    computation takes the world and returns its outcome with the new world.
    A rejected promise is an [Err]; the world changes made before the
    rejection stay. *)
Definition M (A : Type) : Type := world -> result A * world.

Definition ret {A} (a : A) : M A := fun w => (Ok a, w).
Definition throw {A} (e : error) : M A := fun w => (Err e, w).
Definition bind {A B} (m : M A) (k : A -> M B) : M B :=
  fun w => match m w with
           | (Ok a, w') => k a w'
           | (Err e, w') => (Err e, w')
           end.
Definition try_catch {A} (m : M A) (handler : error -> M A) : M A :=
  fun w => match m w with
           | (Ok a, w') => (Ok a, w')
           | (Err e, w') => handler e w'
           end.

Notation "'let*' x ':=' m 'in' k" := (bind m (fun x => k))
  (at level 10, x name, m at level 100, k at level 200).
Notation "m ';;' k" := (bind m (fun _ => k))
  (at level 100, k at level 200, right associativity).

(** *** [node:fs] *)

Module Fs.

Definition parent (l : loc) : loc := removelast l.

(** [mkdir -p]: walk down from the root; existing directories are passed,
    missing ones are created where the parent is writable. *)
Fixpoint mkdir_chain (fs : gmap loc node) (base : loc) (segs : list string)
  : error + gmap loc node :=
  match segs with
  | [] => inr fs
  | s :: rest =>
      let d := base ++ [s] in
      match fs !! d with
      | Some (Dir _) => mkdir_chain fs d rest
      | Some (File _ _) =>
          inl (NodeError (match rest with [] => "EEXIST" | _ => "ENOTDIR" end)
                         "mkdir: not a directory")
      | None =>
          match fs !! base with
          | Some (Dir true) => mkdir_chain (<[d := Dir true]> fs) d rest
          | Some (Dir false) => inl (NodeError "EACCES" "mkdir: permission denied")
          | _ => inl (NodeError "ENOENT" "mkdir: no such file or directory")
          end
      end
  end.

(** [fs.mkdir(p, { recursive: true })] *)
Definition mkdir_recursive (p : string) : M unit :=
  fun w =>
    match mkdir_chain (w_files w) [] (locate (w_host w) p) with
    | inr fs => (Ok tt, set_files w fs)
    | inl e => (Err e, w)
    end.

(** [fs.writeFile(p, content)]: an existing file keeps its mode; a new file
    needs a writable parent directory. *)
Definition write_at (fs : gmap loc node) (l : loc) (content : string)
  : error + gmap loc node :=
  match fs !! l with
  | Some (Dir _) => inl (NodeError "EISDIR" "open: illegal operation on a directory")
  | Some (File r _) => inr (<[l := File r content]> fs)
  | None =>
      match l, fs !! parent l with
      | [], _ => inl (NodeError "EISDIR" "open: illegal operation on a directory")
      | _, Some (Dir true) => inr (<[l := File true content]> fs)
      | _, Some (Dir false) => inl (NodeError "EACCES" "open: permission denied")
      | _, Some (File _ _) => inl (NodeError "ENOTDIR" "open: not a directory")
      | _, None => inl (NodeError "ENOENT" "open: no such file or directory")
      end
  end.

Definition writeFile (p : string) (content : string) : M unit :=
  fun w =>
    match write_at (w_files w) (locate (w_host w) p) content with
    | inr fs => (Ok tt, set_files w fs)
    | inl e => (Err e, w)
    end.

(** [fs.readFile(p, 'utf-8')]; a missing entry is reported as [ENOENT]. *)
Definition read_at (fs : gmap loc node) (l : loc) : error + string :=
  match fs !! l with
  | Some (File true c) => inr c
  | Some (File false _) => inl (NodeError "EACCES" "open: permission denied")
  | Some (Dir _) => inl (NodeError "EISDIR" "read: illegal operation on a directory")
  | None => inl (NodeError "ENOENT" "open: no such file or directory")
  end.

Definition readFile (p : string) : M string :=
  fun w =>
    match read_at (w_files w) (locate (w_host w) p) with
    | inr c => (Ok c, w)
    | inl e => (Err e, w)
    end.

End Fs.

(** ** The version-control engine behind simple-git

    A handle is a base directory and, optionally, the environment given with
    [.env({...})], which then replaces the environment of the process for the
    commands of that handle.  Metadata directories are kept in [w_repos], not
    as entries of [w_files].  Tracked files are recorded by their location in
    the file system.

    The ignore rules of the engine are a pattern language of their own; the
    model takes the matcher as a parameter: [ignores rules rel] tells whether
    the rules text excludes the path [rel], relative to the work tree. *)

Abbreviation matcher := (string -> loc -> bool).

Definition LF : ascii := "010"%char.

Record git_env := GitEnv {
  GIT_DIR : string;
  GIT_WORK_TREE : string;
  HOME : string;
  XDG_CONFIG_HOME : string
}.

Record SimpleGit := Handle {
  baseDir : string;
  genv : option git_env
}.

Record CommitResult := { cr_commit : string }.

Module Git.

(** [simpleGit(baseDir)] refuses a base directory that does not exist. *)
Definition simpleGit (dir : string) : M SimpleGit :=
  fun w =>
    match w_files w !! locate (w_host w) dir with
    | Some (Dir _) => (Ok (Handle dir None), w)
    | _ => (Err (GitError "Cannot use simple-git on a directory that does not exist"), w)
    end.

Definition env (g : SimpleGit) (e : git_env) : SimpleGit := Handle (baseDir g) (Some e).

Definition git_dir (h : host) (g : SimpleGit) : loc :=
  match genv g with
  | Some e => locate h (GIT_DIR e)
  | None => locate h (baseDir g) ++ [".git"]
  end.

Definition work_tree (h : host) (g : SimpleGit) : loc :=
  match genv g with
  | Some e => locate h (GIT_WORK_TREE e)
  | None => locate h (baseDir g)
  end.

(** The home directory the engine looks under for the user-level
    configuration: the handle's [HOME] when an environment was given, the
    one of the process otherwise, if it has one. *)
Definition home (h : host) (g : SimpleGit) : option loc :=
  match genv g with
  | Some e => Some (locate h (HOME e))
  | None => if String.eqb (homedir h) "" then None else Some (locate h (homedir h))
  end.

Definition user_config (w : world) (g : SimpleGit) : option string :=
  match home (w_host w) g with
  | Some d =>
      match w_files w !! (d ++ [".gitconfig"]) with
      | Some (File true c) => Some c
      | _ => None
      end
  | None => None
  end.

(** Every command spawns the engine; without it the spawn fails. *)
Definition spawn {A} (run : M A) : M A :=
  fun w =>
    if w_git_installed w then run w
    else (Err (NodeError "ENOENT" "spawn git ENOENT"), w).

Definition not_a_repository : error :=
  GitError "fatal: not a git repository (or any of the parent directories): .git".

Definition with_repo {A} (g : SimpleGit) (run : repo -> M A) : M A :=
  spawn (fun w =>
    match w_repos w !! git_dir (w_host w) g with
    | Some r => run r w
    | None => (Err not_a_repository, w)
    end).

Definition put_repo (g : SimpleGit) (r : repo) (w : world) : world :=
  set_repos w (<[git_dir (w_host w) g := r]> (w_repos w)).

(** [checkIsRepo(CheckRepoActions.IS_REPO_ROOT)]: the metadata directory is
    the [.git] of the base directory itself.  "Not a repository" is an
    answer, not a failure. *)
Definition checkIsRepo (g : SimpleGit) : M bool :=
  spawn (fun w =>
    let found := bool_decide (is_Some (w_repos w !! git_dir (w_host w) g)) in
    (Ok (match genv g with
         | None => found
         | Some e => String.eqb (GIT_DIR e) ".git" && found
         end), w)).

(** [init(false, { '--initial-branch': b })]: a fresh repository without
    commits; an existing one is left as it is. *)
Definition init (g : SimpleGit) (branch : string) : M unit :=
  spawn (fun w =>
    match w_repos w !! git_dir (w_host w) g with
    | Some _ => (Ok tt, w)
    | None => (Ok tt, put_repo g (Repo branch [] ∅) w)
    end).

(** Object names: the position of the commit in the history, as forty
    hexadecimal digits. *)
Definition oid (n : nat) : string :=
  string_of_list_ascii (repeat "0"%char 32 ++ Sha256.hex_word (N.of_nat n)).

Definition head_tree (r : repo) : gmap loc string :=
  match last (r_commits r) with
  | Some c => c_tree c
  | None => ∅
  end.

(** [commit(message, options)]: the index becomes a new commit made under the
    user-level configuration in force.  Without [--allow-empty] an index equal
    to the head's tree is nothing to commit: no commit is made, the command
    does not fail, and the result's [commit] is the empty string. *)
Definition commit (g : SimpleGit) (msg : string) (options : list string)
  : M CommitResult :=
  with_repo g (fun r w =>
    if negb (bool_decide ("--allow-empty" ∈ options))
       && bool_decide (r_index r = head_tree r)
    then (Ok {| cr_commit := "" |}, w)
    else
      let c := Commit msg (user_config w g) (r_index r) in
      let r' := Repo (r_branch r) (r_commits r ++ [c]) (r_index r) in
      (Ok {| cr_commit := oid (length (r_commits r')) |}, put_repo g r' w)).

Fixpoint find_ref (cs : list commit_record) (n : nat) (ref : string)
  : option commit_record :=
  match cs with
  | [] => None
  | c :: rest => if String.eqb (oid n) ref then Some c else find_ref rest (S n) ref
  end.

Definition resolve_ref (r : repo) (ref : string) : option commit_record :=
  find_ref (r_commits r) 1 ref.

(** *** Work tree *)

Fixpoint starts_with (p l : loc) : bool :=
  match p, l with
  | [], _ => true
  | a :: p', b :: l' => String.eqb a b && starts_with p' l'
  | _ :: _, [] => false
  end.

Definition relative (wt l : loc) : loc := drop (length wt) l.

(** A path the engine considers in the work tree: strictly below it and with
    no [.git] component. *)
Definition in_work_tree (wt l : loc) : bool :=
  starts_with wt l
  && negb (bool_decide (relative wt l = []))
  && negb (bool_decide (".git" ∈ relative wt l)).

Definition ignore_rules (w : world) (wt : loc) : string :=
  match w_files w !! (wt ++ [".gitignore"]) with
  | Some (File true c) => c
  | _ => ""
  end.

Definition candidate (ignores : matcher) (w : world) (wt l : loc) : bool :=
  in_work_tree wt l && negb (ignores (ignore_rules w wt) (relative wt l)).

(** [add('.')]: the index becomes the files of the work tree that the ignore
    rules do not exclude.  A file that cannot be read stops the command. *)
Definition staged (ignores : matcher) (w : world) (wt : loc) : gmap loc string :=
  map_imap (fun l n =>
              match n with
              | File _ c => if candidate ignores w wt l then Some c else None
              | Dir _ => None
              end) (w_files w).

Definition locked (n : node) : bool :=
  match n with File false _ => true | _ => false end.

Definition unreadable (ignores : matcher) (w : world) (wt : loc) : bool :=
  bool_decide (map_Exists (fun l n => candidate ignores w wt l = true
                                      /\ locked n = true) (w_files w)).

Definition add_all (ignores : matcher) (g : SimpleGit) : M unit :=
  with_repo g (fun r w =>
    let wt := work_tree (w_host w) g in
    if unreadable ignores w wt
    then (Err (GitError "error: open: Permission denied; fatal: adding files failed"), w)
    else (Ok tt, put_repo g (Repo (r_branch r) (r_commits r) (staged ignores w wt)) w)).

(** [rev-parse HEAD]: the head's object name and a line feed; a repository
    without commits has no head to resolve. *)
Definition rev_parse_HEAD (g : SimpleGit) : M string :=
  with_repo g (fun r w =>
    match r_commits r with
    | [] => (Err (GitError "fatal: ambiguous argument 'HEAD': unknown revision or path not in the working tree."), w)
    | cs => (Ok (oid (length cs) +:+ String LF ""), w)
    end).

(** Writing one tracked file back: missing parent directories are made, the
    entry is replaced through its (writable) parent directory; a file that
    already has the content is left alone. *)
Definition put_file (fs : gmap loc node) (l : loc) (c : string)
  : option (gmap loc node) :=
  match fs !! l with
  | Some (Dir _) => None
  | Some (File r c') =>
      if String.eqb c c' then Some fs
      else match fs !! Fs.parent l with
           | Some (Dir true) => Some (<[l := File true c]> fs)
           | _ => None
           end
  | None =>
      match Fs.mkdir_chain fs [] (Fs.parent l) with
      | inr fs1 =>
          match fs1 !! Fs.parent l with
          | Some (Dir true) => Some (<[l := File true c]> fs1)
          | _ => None
          end
      | inl _ => None
      end
  end.

Definition restore_tree (tree : gmap loc string) (fs : gmap loc node)
  : gmap loc node * bool :=
  map_fold (fun l c acc =>
              match put_file (fst acc) l c with
              | Some fs' => (fs', snd acc)
              | None => (fst acc, false)
              end) (fs, true) tree.

(** [restore --source ref .]: every file of the commit is written to the work
    tree; the index is not touched.  Files that cannot be written make the
    command fail after the others have been written. *)
Definition restore_source (g : SimpleGit) (ref : string) : M string :=
  with_repo g (fun r w =>
    match resolve_ref r ref with
    | None => (Err (GitError ("fatal: could not resolve " +:+ ref)), w)
    | Some c =>
        if bool_decide (c_tree c = ∅)
        then (Err (GitError "error: pathspec '.' did not match any file(s) known to git"), w)
        else
          let '(fs, ok) := restore_tree (c_tree c) (w_files w) in
          if ok then (Ok "", set_files w fs)
          else (Err (GitError "error: unable to create file"), set_files w fs)
    end).

(** [raw(...)] with the two command lines the service uses. *)
Definition raw (g : SimpleGit) (args : list string) : M string :=
  match args with
  | ["rev-parse"; "HEAD"] => rev_parse_HEAD g
  | ["restore"; "--source"; ref; "."] => restore_source g ref
  | _ => spawn (throw (GitError "git: command not modelled"))
  end.

(** [clean('f', ['-d'])]: untracked files that the ignore rules do not
    exclude are removed where their directory is writable, then the
    directories left with nothing but directories below them.  What cannot be
    removed makes the command fail after the rest has been removed. *)
Definition writable_dir (fs : gmap loc node) (l : loc) : bool :=
  match fs !! l with Some (Dir true) => true | _ => false end.

Definition is_dir (n : node) : bool :=
  match n with Dir _ => true | File _ _ => false end.

Definition untracked (ignores : matcher) (w : world) (wt : loc) (r : repo)
  (l : loc) (n : node) : bool :=
  negb (is_dir n) && candidate ignores w wt l
  && bool_decide (r_index r !! l = None).

Definition only_dirs_below (fs : gmap loc node) (d : loc) : bool :=
  bool_decide (map_Forall (fun k n => starts_with d k = true -> is_dir n = true) fs).

Definition clearable (fs : gmap loc node) (d : loc) : bool :=
  bool_decide (map_Forall (fun k n => starts_with d k = true ->
                                      is_dir n = true
                                      /\ writable_dir fs (Fs.parent k) = true) fs).

Definition clean_fd (ignores : matcher) (g : SimpleGit) : M unit :=
  with_repo g (fun r w =>
    let wt := work_tree (w_host w) g in
    let fs := w_files w in
    let fs1 := filter (fun '(l, n) => ~ (untracked ignores w wt r l n = true
                                         /\ writable_dir fs (Fs.parent l) = true)) fs in
    let fs2 := filter (fun '(l, n) => ~ (is_dir n = true
                                         /\ in_work_tree wt l = true
                                         /\ clearable fs1 l = true)) fs1 in
    let left_over :=
      bool_decide (map_Exists (fun l n =>
                                 untracked ignores w wt r l n = true
                                 \/ (is_dir n = true /\ in_work_tree wt l = true
                                     /\ only_dirs_below fs2 l = true)) fs2) in
    if left_over
    then (Err (GitError "warning: failed to remove: Permission denied"), set_files w fs2)
    else (Ok tt, set_files w fs2)).

End Git.





(** ** [Storage] (config/storage.ts) *)

Module Storage.

Definition GEMINI_DIR : string := ".gemini".
Definition GOOGLE_ACCOUNTS_FILENAME : string := "google_accounts.json".
Definition TMP_DIR_NAME : string := "tmp".

Record t := new { targetDir : string }.

Definition getGlobalGeminiDir (h : host) : string :=
  let homeDir := homedir h in
  if String.eqb homeDir "" then Path.join [tmpdir h; ".gemini"]
  else Path.join [homeDir; GEMINI_DIR].

(** Global paths: configuration and credentials shared by all projects. *)
Definition getMcpOAuthTokensPath (h : host) : string :=
  Path.join [getGlobalGeminiDir h; "mcp-oauth-tokens.json"].

Definition getGlobalSettingsPath (h : host) : string :=
  Path.join [getGlobalGeminiDir h; "settings.json"].

Definition getInstallationIdPath (h : host) : string :=
  Path.join [getGlobalGeminiDir h; "installation_id"].

Definition getGoogleAccountsPath (h : host) : string :=
  Path.join [getGlobalGeminiDir h; GOOGLE_ACCOUNTS_FILENAME].

Definition getUserCommandsDir (h : host) : string :=
  Path.join [getGlobalGeminiDir h; "commands"].

Definition getGlobalMemoryFilePath (h : host) : string :=
  Path.join [getGlobalGeminiDir h; "memory.md"].

Definition getGlobalTempDir (h : host) : string :=
  Path.join [getGlobalGeminiDir h; TMP_DIR_NAME].

Definition getOAuthCredsPath (h : host) : string :=
  Path.join [getGlobalGeminiDir h; "oauth_creds.json"].

(** Paths bound to the project. *)
Definition getGeminiDir (s : t) : string :=
  Path.join [targetDir s; GEMINI_DIR].

Definition getProjectRoot (s : t) : string := targetDir s.

Definition getFilePathHash (filePath : string) : string :=
  Sha256.hexdigest filePath.

Definition getProjectTempDir (h : host) (s : t) : string :=
  let hash := getFilePathHash (getProjectRoot s) in
  let tempDir := getGlobalTempDir h in
  Path.join [tempDir; hash].

Definition ensureProjectTempDirExists (s : t) : M unit :=
  fun w => Fs.mkdir_recursive (getProjectTempDir (w_host w) s) w.

Definition getHistoryDir (h : host) (s : t) : string :=
  let hash := getFilePathHash (getProjectRoot s) in
  let historyDir := Path.join [getGlobalGeminiDir h; "history"] in
  Path.join [historyDir; hash].

Definition getWorkspaceSettingsPath (s : t) : string :=
  Path.join [getGeminiDir s; "settings.json"].

Definition getProjectCommandsDir (s : t) : string :=
  Path.join [getGeminiDir s; "commands"].

Definition getProjectTempCheckpointsDir (h : host) (s : t) : string :=
  Path.join [getProjectTempDir h s; "checkpoints"].

Definition getExtensionsDir (s : t) : string :=
  Path.join [getGeminiDir s; "extensions"].

Definition getExtensionsConfigPath (s : t) : string :=
  Path.join [getExtensionsDir s; "gemini-extension.json"].

Definition getHistoryFilePath (h : host) (s : t) : string :=
  Path.join [getProjectTempDir h s; "shell_history"].

End Storage.

(** ** [GitService] (services/gitService.ts) *)

Module GitService.

Record t := mk { projectRoot : string; storage : Storage.t }.

(** The constructor resolves the project root against the working directory;
    the storage object is kept as it is given. *)
Definition new (h : host) (projectRoot : string) (storage : Storage.t) : t :=
  mk (Path.resolve (cwd h) [projectRoot]) storage.

Definition getHistoryDir (gs : t) : M string :=
  fun w => (Ok (Storage.getHistoryDir (w_host w) (storage gs)), w).

(** [exec('git --version', callback)]: the callback receives the error, if
    any. *)
Definition exec_git_version : M (option error) :=
  fun w => if w_git_installed w then (Ok None, w)
           else (Ok (Some (NodeError "ENOENT" "git: command not found")), w).

Definition verifyGitAvailability (gs : t) : M bool :=
  let* error := exec_git_version in
  match error with
  | Some _ => ret false
  | None => ret true
  end.

Definition gitConfigContent : string :=
  "[user]
  name = Gemini CLI
  email = gemini-cli@google.com
[commit]
  gpgsign = false
".

(** [setupShadowGitRepository] is kept in two parts, so that the state
    between them can be named: it is their sequence, below.  First part, up
    to the repository check and what it guards: the directory, the dedicated
    configuration file, the repository and its first commit. *)
Definition setupRepository (gs : t) : M string :=
  let* repoDir := getHistoryDir gs in
  let gitConfigPath := Path.join [repoDir; ".gitconfig"] in
  Fs.mkdir_recursive repoDir ;;
  Fs.writeFile gitConfigPath gitConfigContent ;;
  let* repo := Git.simpleGit repoDir in
  let* isRepoDefined := Git.checkIsRepo repo in
  (if negb isRepoDefined then
     Git.init repo "main" ;;
     let* _ := Git.commit repo "Initial commit" ["--allow-empty"] in
     ret tt
   else ret tt) ;;
  ret repoDir.

(** [setupShadowGitRepository], second part: the ignore file of the project
    is copied into the shadow directory. *)
Definition syncGitIgnore (gs : t) (repoDir : string) : M unit :=
  let userGitIgnorePath := Path.join [projectRoot gs; ".gitignore"] in
  let shadowGitIgnorePath := Path.join [repoDir; ".gitignore"] in
  let* userGitIgnoreContent :=
    try_catch (Fs.readFile userGitIgnorePath)
      (fun error =>
         if isNodeError error && negb (String.eqb (code error) "ENOENT")
         then throw error
         else ret "") in
  Fs.writeFile shadowGitIgnorePath userGitIgnoreContent.

Definition setupShadowGitRepository (gs : t) : M unit :=
  let* repoDir := setupRepository gs in
  syncGitIgnore gs repoDir.

Definition describe (error : error) : string :=
  if instanceofError error then message error else "Unknown error".

Definition initialize (gs : t) : M unit :=
  let* gitAvailable := verifyGitAvailability gs in
  if negb gitAvailable then
    throw (PlainError "Checkpointing is enabled, but Git is not installed. Please install Git or disable checkpointing to continue.")
  else
    try_catch (setupShadowGitRepository gs)
      (fun error =>
         throw (PlainError ("Failed to initialize checkpointing: "
                            +:+ describe error
                            +:+ ". Please check that Git is working properly or disable checkpointing."))).

Definition shadowGitRepository (gs : t) : M SimpleGit :=
  let* repoDir := getHistoryDir gs in
  let* g := Git.simpleGit (projectRoot gs) in
  ret (Git.env g {| GIT_DIR := Path.join [repoDir; ".git"];
                    GIT_WORK_TREE := projectRoot gs;
                    HOME := repoDir;
                    XDG_CONFIG_HOME := repoDir |}).


Definition createFileSnapshot (ignores : matcher) (gs : t) (msg : string) : M string :=
  try_catch
    (let* repo := shadowGitRepository gs in
     Git.add_all ignores repo ;;
     let* commitResult := Git.commit repo msg [] in
     ret (cr_commit commitResult))
    (fun error =>
       throw (PlainError ("Failed to create checkpoint snapshot: "
                          +:+ describe error
                          +:+ ". Checkpointing may not be working properly."))).

Definition restoreProjectFromSnapshot (ignores : matcher) (gs : t) (commitHash : string)
  : M unit :=
  let* repo := shadowGitRepository gs in
  let* _ := Git.raw repo ["restore"; "--source"; commitHash; "."] in
  Git.clean_fd ignores repo.

End GitService.

(** ** A concrete host for the examples *)

Definition pony : host := Host "/home/pony" "/tmp" "/work/app".

(** A matcher for the examples: a rule is a line; it excludes the path it
    spells and everything below the top-level entry it names. *)
Fixpoint lines (s : string) : list string :=
  match s with
  | EmptyString => [""]
  | String c s' =>
      if Ascii.eqb c LF then "" :: lines s'
      else match lines s' with
           | l :: rest => String c l :: rest
           | [] => [String c ""]
           end
  end.

Definition literal_ignores : matcher :=
  fun rules rel => bool_decide (String.concat "/" rel ∈ lines rules)
                   || match rel with
                      | top :: _ => bool_decide (top ∈ lines rules)
                      | [] => false
                      end.

(** ** Locations of a project's shadow store *)

Module Store.

Definition historyLoc (h : host) (gs : GitService.t) : loc :=
  locate h (Storage.getHistoryDir h (GitService.storage gs)).
Definition shadowIgnoreLoc (h : host) (gs : GitService.t) : loc :=
  historyLoc h gs ++ [".gitignore"].
Definition metadataLoc (h : host) (gs : GitService.t) : loc :=
  historyLoc h gs ++ [".git"].

(** The handle the service builds for the shadow store. *)
Definition handle (h : host) (gs : GitService.t) : SimpleGit :=
  let repoDir := Storage.getHistoryDir h (GitService.storage gs) in
  Handle (GitService.projectRoot gs)
         (Some {| GIT_DIR := Path.join [repoDir; ".git"];
                  GIT_WORK_TREE := GitService.projectRoot gs;
                  HOME := repoDir;
                  XDG_CONFIG_HOME := repoDir |}).

(** The handle [setupShadowGitRepository] works with. *)
Definition setupHandle (h : host) (gs : GitService.t) : SimpleGit :=
  Handle (Storage.getHistoryDir h (GitService.storage gs)) None.

End Store.

(** ** Notions used in the statements *)

(** A name: a single path segment that the segment walk keeps as it is. *)
Definition name (s : string) : Prop :=
  Path.segments s = [s] /\ s <> "" /\ s <> "." /\ s <> "..".

(** The stack of the working directory, from which relative paths are walked. *)
Definition base (h : host) : loc :=
  fold_left (Path.step false) (Path.segments (cwd h)) [].

Definition is_hex (c : ascii) : bool :=
  let n := N_of_ascii c in
  (N.leb 48 n && N.leb n 57) || (N.leb 97 n && N.leb n 102).



Definition initialize_failed (cause : error) : error :=
  PlainError ("Failed to initialize checkpointing: "
              +:+ GitService.describe cause
              +:+ ". Please check that Git is working properly or disable checkpointing.").



(** Reading hexadecimal digits back, most significant first. *)
Definition unhex_digit (c : ascii) : N :=
  let n := N_of_ascii c in
  if N.leb 97 n then (n - 87)%N else (n - 48)%N.

Definition unhex (cs : list ascii) : N :=
  fold_left (fun acc c => (16 * acc + unhex_digit c)%N) cs 0%N.

(** The locations of a storage object's per-project directories. *)
Definition historyDirLoc (h : host) (s : Storage.t) : loc :=
  locate h (Storage.getHistoryDir h s).
Definition tempDirLoc (h : host) (s : Storage.t) : loc :=
  locate h (Storage.getProjectTempDir h s).
Definition globalLoc (h : host) : loc :=
  locate h (Storage.getGlobalGeminiDir h).


(** ** Concrete worlds for the examples

    The host [pony] runs in [/work/app], a project with one file.  [w0] is
    that world before any checkpoint; [w1] after [initialize]; [w2] after a
    first snapshot. *)

Definition dirs (ls : list loc) : gmap loc node :=
  list_to_map (map (fun l => (l, Dir true)) ls).

Definition fs0 : gmap loc node :=
  <[ ["work"; "app"; "a.txt"] := File true "v1" ]>
    (dirs [[]; ["home"]; ["home"; "pony"]; ["work"]; ["work"; "app"]]).

Definition w0 : world := World pony true fs0 ∅.

Definition gs0 : GitService.t := GitService.new pony "." (Storage.new "/work/app").

Definition w1 : world := snd (GitService.initialize gs0 w0).

Definition w2 : world :=
  snd (GitService.createFileSnapshot literal_ignores gs0 "m1" w1).

(** The same project on a machine without the engine. *)
Definition w_no_git : world := World pony false fs0 ∅.

(** The user has a configuration file of their own. *)
Definition alice_config : string :=
  "[user]
  name = Alice
  email = alice@example.com
[commit]
  gpgsign = true
".

Definition w_alice : world :=
  World pony true (<[ ["home"; "pony"; ".gitconfig"] := File true alice_config ]> fs0) ∅.



(** The project's ignore file is a directory. *)
Definition w_ignore_dir : world :=
  World pony true (<[ ["work"; "app"; ".gitignore"] := Dir true ]> fs0) ∅.

Definition w_alice1 : world := snd (GitService.initialize gs0 w_alice).

Definition w_alice2 : world :=
  snd (GitService.createFileSnapshot literal_ignores gs0 "m1" w_alice1).


Definition ref2 : string := "0000000000000000000000000000000000000002".


(** After the first snapshot the file is edited and a second file is added;
    then the first snapshot is restored. *)
Definition w5 : world :=
  set_files w2
    (<[ ["work"; "app"; "b.txt"] := File true "new" ]>
       (<[ ["work"; "app"; "a.txt"] := File true "v2" ]> (w_files w2))).

Definition w6 : world :=
  snd (GitService.restoreProjectFromSnapshot literal_ignores gs0 ref2 w5).

(** A project whose ignore file excludes one of its files. *)
Definition w_secret : world :=
  World pony true
    (<[ ["work"; "app"; "secret.txt"] := File true "s" ]>
       (<[ ["work"; "app"; ".gitignore"] := File true "secret.txt" ]> fs0)) ∅.

Definition w_secret2 : world :=
  snd (GitService.createFileSnapshot literal_ignores gs0 "m1"
         (snd (GitService.initialize gs0 w_secret))).

(** * Properties *)

(** ** The platform model at work *)

Example sha256_abc :
  Sha256.hexdigest "abc"
  = "ba7816bf8f01cfea414140de5dae2223b00361a396177a9cb410ff61f20015ad".
Proof. vm_compute. reflexivity. Qed.

Example sha256_empty :
  Sha256.hexdigest ""
  = "e3b0c44298fc1c149afbf4c8996fb92427ae41e4649b934ca495991b7852b855".
Proof. vm_compute. reflexivity. Qed.

Example sha256_two_blocks :
  Sha256.hexdigest "abcdbcdecdefdefgefghfghighijhijkijkljklmklmnlmnomnopnopq"
  = "248d6a61d20638b8e5c026930c3e6039a33ce45964ff2167f6ecedd419db06c1".
Proof. vm_compute. reflexivity. Qed.

Example join_home : Path.join ["/home/pony"; ".gemini"] = "/home/pony/.gemini".
Proof. reflexivity. Qed.

Example join_dots : Path.join ["/a/b/"; "../c"; "./d/"] = "/a/c/d/".
Proof. reflexivity. Qed.

Example join_empty : Path.join [""; ""] = ".".
Proof. reflexivity. Qed.

Example join_above : Path.join ["a"; "../../b"] = "../b".
Proof. reflexivity. Qed.

Example resolve_rel : Path.resolve "/work/app" ["."] = "/work/app".
Proof. reflexivity. Qed.

Example resolve_up : Path.resolve "/work/app" ["../lib/"] = "/work/lib".
Proof. reflexivity. Qed.

Example resolve_abs : Path.resolve "/work/app" ["/x//y/../z"] = "/x/z".
Proof. reflexivity. Qed.

(** ** Paths: segments *)

Section PathFacts.

Import Path.

Lemma segments_nonempty s : segments s <> [].
Proof.
  destruct s as [|c s]; simpl; [discriminate|].
  destruct (Ascii.eqb c slash); [discriminate|].
  destruct (segments s); discriminate.
Qed.

Lemma segments_cons c s :
  Ascii.eqb c slash = false ->
  exists seg rest, segments s = seg :: rest /\ segments (String c s) = String c seg :: rest.
Proof.
  intros Hc. simpl. rewrite Hc.
  destruct (segments s) as [|seg rest] eqn:E.
  - exfalso. by apply (segments_nonempty s).
  - eauto.
Qed.

(** Segments of a path put together with a slash. *)
Lemma segments_app a b :
  segments (a +:+ "/" +:+ b) = segments a ++ segments b.
Proof.
  induction a as [|c a IH]; simpl.
  - reflexivity.
  - rewrite IH. destruct (Ascii.eqb c slash); [reflexivity|].
    destruct (segments a) as [|seg rest] eqn:E; simpl.
    + exfalso. by apply (segments_nonempty a).
    + reflexivity.
Qed.

Lemma segments_trailing a : segments (a +:+ "/") = segments a ++ [""].
Proof. apply (segments_app a ""). Qed.

Lemma segments_plain s : forall y, y ∈ segments s -> segments y = [y].
Proof.
  induction s as [|c s IH]; simpl; intros y Hy.
  - apply list_elem_of_singleton in Hy. by subst.
  - destruct (Ascii.eqb c slash) eqn:Hc.
    + apply elem_of_cons in Hy as [->|Hy]; [reflexivity | by apply IH].
    + destruct (segments s) as [|seg rest] eqn:E.
      * apply list_elem_of_singleton in Hy. subst. simpl. by rewrite Hc.
      * apply elem_of_cons in Hy as [->|Hy].
        -- simpl. rewrite Hc. rewrite (IH seg); [reflexivity | left].
        -- apply IH. by right.
Qed.

End PathFacts.

(** ** Paths: the segment walk *)

Section Walk.
Import Path.

Lemma step_skip allow S s : s = "" \/ s = "." -> step allow S s = S.
Proof. intros [->| ->]; reflexivity. Qed.

Lemma step_name allow S s : name s -> step allow S s = s :: S.
Proof.
  intros (_ & H1 & H2 & H3). unfold step.
  apply String.eqb_neq in H1, H2, H3. by rewrite H1, H2, H3.
Qed.

Lemma segment_cases s :
  segments s = [s] -> s = "" \/ s = "." \/ s = ".." \/ name s.
Proof.
  intros Hs.
  destruct (String.eqb_spec s ""); [by left|].
  destruct (String.eqb_spec s "."); [by right; left|].
  destruct (String.eqb_spec s ".."); [by right; right; left|].
  right; right; right. by repeat split.
Qed.

Lemma walk_names allow l S :
  Forall name l -> fold_left (step allow) l S = rev l ++ S.
Proof.
  revert S. induction l as [|s l IH]; intros S Hl; simpl; [reflexivity|].
  inversion Hl; subst. rewrite step_name by done. rewrite IH by done.
  by rewrite <- app_assoc.
Qed.

Lemma step_up_false S :
  Forall name S -> step false S ".." = drop 1 S.
Proof.
  intros HS. unfold step. simpl.
  destruct S as [|t r]; [reflexivity|].
  inversion HS as [|? ? (_ & _ & _ & Ht) _]; subst.
  apply String.eqb_neq in Ht. by rewrite Ht.
Qed.

Lemma walk_dots k S :
  Forall name S -> fold_left (step false) (repeat ".." k) S = drop k S.
Proof.
  revert S. induction k as [|k IH]; intros S HS; simpl.
  - by rewrite drop_0.
  - rewrite step_up_false by done. rewrite IH.
    + by rewrite drop_drop.
    + by apply Forall_drop.
Qed.

Lemma walk_clean segs : forall S,
  Forall name S -> (forall y, y ∈ segs -> segments y = [y]) ->
  Forall name (fold_left (step false) segs S).
Proof.
  induction segs as [|s segs IH]; intros S HS Hp; simpl; [done|].
  apply IH; [|intros y Hy; apply Hp; by right].
  destruct (segment_cases s) as [->|[->|[->|Hn]]]; [apply Hp; by left|done|done| |].
  - rewrite step_up_false by done. by apply Forall_drop.
  - rewrite step_name by done. by constructor.
Qed.

(** Walking a relative path with and without leave to climb above the root:
    the first walk keeps [k] double dots under the names [tc], the second
    climbs [k] levels in the stack it started from. *)
Lemma walk_relative segs : forall tc k S0,
  Forall name tc -> Forall name S0 ->
  (forall y, y ∈ segs -> segments y = [y]) ->
  exists tc' k',
    Forall name tc'
    /\ fold_left (step true) segs (tc ++ repeat ".." k) = tc' ++ repeat ".." k'
    /\ fold_left (step false) segs (tc ++ drop k S0) = tc' ++ drop k' S0.
Proof.
  induction segs as [|s segs IH]; intros tc k S0 Htc HS0 Hp; simpl.
  - by exists tc, k.
  - assert (Hs : segments s = [s]) by (apply Hp; by left).
    assert (Hp' : forall y, y ∈ segs -> segments y = [y])
      by (intros y Hy; apply Hp; by right).
    destruct (segment_cases s Hs) as [->|[->|[->|Hn]]].
    + simpl. by apply IH.
    + by apply IH.
    + destruct tc as [|t tc].
      * simpl. rewrite step_up_false by (by apply Forall_drop).
        rewrite drop_drop.
        replace (step true (repeat ".." k) "..") with (repeat ".." (S k)).
        -- replace (k + 1) with (S k) by lia.
           apply (IH [] (S k) S0); done.
        -- destruct k; reflexivity.
      * inversion Htc as [|? ? Hname Htc']; subst.
        destruct Hname as (_ & _ & _ & Ht). apply String.eqb_neq in Ht.
        unfold step at 2 4. simpl. rewrite Ht. by apply IH.
    + rewrite !step_name by done.
      apply (IH (s :: tc) k S0); [by constructor|done|done].
Qed.

End Walk.

(** ** Paths: normal forms *)

Section Normalize.
Import Path.

Lemma concat_segments c :
  c <> [] -> Forall (fun y => segments y = [y]) c ->
  segments (String.concat "/" c) = c.
Proof.
  induction c as [|a c IH]; intros Hne Hc; [done|].
  inversion Hc as [|? ? Ha Hc']; subst.
  destruct c as [|b c]; [exact Ha|].
  change (String.concat "/" (a :: b :: c))
    with (a +:+ "/" +:+ String.concat "/" (b :: c)).
  rewrite segments_app, Ha, IH; done.
Qed.

Lemma concat_nonempty c :
  c <> [] -> Forall (fun y => y <> "") c -> String.concat "/" c <> "".
Proof.
  destruct c as [|a c]; intros Hne Hc; [done|].
  inversion Hc as [|? ? Ha _]; subst.
  destruct a as [|ch a]; [done|].
  destruct c; simpl; discriminate.
Qed.

Lemma plain_not_absolute y : segments y = [y] -> isAbsolute y = false.
Proof.
  destruct y as [|c y]; [reflexivity|]. simpl.
  destruct (Ascii.eqb c slash); [discriminate | reflexivity].
Qed.

Lemma isAbsolute_append a b : a <> "" -> isAbsolute (a +:+ b) = isAbsolute a.
Proof. destruct a; [done | reflexivity]. Qed.

Lemma concat_head a c : exists b, String.concat "/" (a :: c) = a +:+ b.
Proof.
  destruct c as [|x c].
  - exists "". simpl. induction a as [|ch a IH]; [done|].
    change (String ch a = String ch (a +:+ "")). by f_equal.
  - by exists ("/" +:+ String.concat "/" (x :: c)).
Qed.

Lemma name_plain s : name s -> segments s = [s].
Proof. by intros [? _]. Qed.

Lemma name_nonempty s : name s -> s <> "".
Proof. by intros (_ & ? & _). Qed.

Lemma dots_plain k : Forall (fun y => segments y = [y]) (repeat ".." k).
Proof. induction k; simpl; by constructor. Qed.

Lemma dots_nonempty k : Forall (fun y => y <> "") (repeat ".." k).
Proof. induction k; simpl; by constructor. Qed.

Lemma rev_repeat {A} (x : A) k : rev (repeat x k) = repeat x k.
Proof.
  induction k as [|k IH]; [reflexivity|]. simpl. rewrite IH.
  clear IH. induction k; simpl; congruence.
Qed.

Lemma segments_leading y : segments ("/" +:+ y) = "" :: segments y.
Proof. reflexivity. Qed.

Lemma fold_skip_first allow l S :
  fold_left (step allow) ("" :: l) S = fold_left (step allow) l S.
Proof. reflexivity. Qed.

Lemma fold_skip_last allow l S :
  fold_left (step allow) (l ++ [""]) S = fold_left (step allow) l S.
Proof. by rewrite fold_left_app. Qed.

(** The stack reached by a walk does not change when the path is normalized
    first. *)
Lemma walk_normalize x S0 :
  Forall name S0 ->
  isAbsolute (normalize x) = isAbsolute x
  /\ fold_left (step false) (segments (normalize x))
       (if isAbsolute x then [] else S0)
     = fold_left (step false) (segments x) (if isAbsolute x then [] else S0).
Proof.
  intros HS0. unfold normalize.
  destruct (String.eqb_spec x "") as [->|Hx]; [by split|].
  pose proof (segments_plain x) as Hplain.
  destruct (isAbsolute x) eqn:Habs; simpl negb; unfold normalizeString.
  - set (T := fold_left (step false) (segments x) []).
    assert (HT : Forall name T) by (apply walk_clean; done).
    destruct (decide (T = [])) as [HTe|HTne].
    + rewrite HTe. simpl. by split.
    + assert (Hrev : rev T <> []) by (intros E; apply HTne; by rewrite <- (rev_involutive T), E).
      assert (Hrn : Forall name (rev T)) by (by apply Forall_rev).
      assert (Hne : String.concat "/" (rev T) <> "").
      { apply concat_nonempty; [done|]. eapply Forall_impl; [exact Hrn|]. apply name_nonempty. }
      apply String.eqb_neq in Hne. rewrite Hne.
      assert (Hseg : segments (String.concat "/" (rev T)) = rev T).
      { apply concat_segments; [done|]. eapply Forall_impl; [exact Hrn|]. apply name_plain. }
      split; [reflexivity|].
      destruct (endsWithSlash x); rewrite segments_leading, fold_skip_first.
      * rewrite segments_trailing, Hseg, fold_skip_last.
        rewrite walk_names by done. by rewrite rev_involutive, app_nil_r.
      * rewrite Hseg. rewrite walk_names by done. by rewrite rev_involutive, app_nil_r.
  - destruct (walk_relative (segments x) [] 0 S0) as (tc & k & Htc & HT & HS); try done.
    simpl in HT, HS. rewrite drop_0 in HS. rewrite HT, HS.
    rewrite rev_app_distr, rev_repeat.
    assert (Hpl : Forall (fun y => segments y = [y]) (repeat ".." k ++ rev tc)).
    { apply Forall_app; split; [apply dots_plain|].
      apply Forall_rev. eapply Forall_impl; [exact Htc|]. apply name_plain. }
    assert (Hnn : Forall (fun y => y <> "") (repeat ".." k ++ rev tc)).
    { apply Forall_app; split; [apply dots_nonempty|].
      apply Forall_rev. eapply Forall_impl; [exact Htc|]. apply name_nonempty. }
    destruct (decide (repeat ".." k ++ rev tc = [])) as [He|Hne].
    + rewrite He. simpl.
      apply app_eq_nil in He as [Hk Hr].
      assert (tc = []) as -> by (by rewrite <- (rev_involutive tc), Hr).
      destruct k; [|discriminate]. rewrite drop_0.
      destruct (endsWithSlash x); by split.
    + pose proof (concat_nonempty _ Hne Hnn) as Hcne.
      apply String.eqb_neq in Hcne. rewrite Hcne.
      pose proof (concat_segments _ Hne Hpl) as Hseg.
      assert (Hwalk : fold_left (step false) (repeat ".." k ++ rev tc) S0 = tc ++ drop k S0).
      { rewrite fold_left_app, walk_dots by done.
        rewrite walk_names by (by apply Forall_rev). by rewrite rev_involutive. }
      assert (Hrel : isAbsolute (String.concat "/" (repeat ".." k ++ rev tc)) = false).
      { destruct (repeat ".." k ++ rev tc) as [|a c] eqn:E; [done|].
        destruct (concat_head a c) as [b ->].
        inversion Hpl; subst. inversion Hnn; subst.
        rewrite isAbsolute_append by done. by apply plain_not_absolute. }
      destruct (endsWithSlash x).
      * split.
        -- rewrite isAbsolute_append; [done | by apply String.eqb_neq].
        -- by rewrite segments_trailing, Hseg, fold_skip_last.
      * split; [done | by rewrite Hseg].
Qed.

End Normalize.

(** ** Locations and fingerprints *)

Section Locate.
Import Path.


Lemma base_clean h : Forall name (base h).
Proof. apply walk_clean; [constructor | apply segments_plain]. Qed.

Lemma locate_eq h p :
  locate h p
  = rev (fold_left (step false) (segments p) (if isAbsolute p then [] else base h)).
Proof.
  unfold locate, resolve_loop, base.
  destruct (String.eqb_spec p "") as [->|Hp].
  - destruct (String.eqb_spec (cwd h) "") as [->|Hc]; [reflexivity|].
    simpl isAbsolute. cbv iota.
    change (cwd h +:+ "/" +:+ "") with (cwd h +:+ "/").
    by rewrite segments_trailing, fold_skip_last.
  - destruct (isAbsolute p) eqn:Hab.
    + change (p +:+ "/" +:+ "") with (p +:+ "/").
      by rewrite segments_trailing, fold_skip_last.
    + destruct (String.eqb_spec (cwd h) "") as [->|Hc].
      * change (p +:+ "/" +:+ "") with (p +:+ "/").
        by rewrite segments_trailing, fold_skip_last.
      * change (p +:+ "/" +:+ "") with (p +:+ "/").
        by rewrite segments_app, segments_trailing, app_assoc, fold_skip_last, fold_left_app.
Qed.

(** A path and its normal form name the same location. *)
Lemma locate_normalize h x : locate h (normalize x) = locate h x.
Proof.
  rewrite !locate_eq.
  destruct (walk_normalize x (base h) (base_clean h)) as [Hab Hw].
  rewrite Hab. by rewrite Hw.
Qed.

(** Joining a name to a directory path names the entry of that name in the
    directory. *)
Lemma locate_join_name h d s :
  name s -> locate h (join [d; s]) = locate h d ++ [s].
Proof.
  intros Hs. pose proof Hs as (Hpl & Hne & _).
  unfold join, joined. simpl fold_left.
  apply String.eqb_neq in Hne. rewrite Hne.
  destruct (String.eqb_spec d "") as [->|Hd].
  - rewrite locate_normalize, !locate_eq.
    rewrite (plain_not_absolute s Hpl), Hpl. simpl isAbsolute. cbv iota.
    change (segments "") with [""]. simpl fold_left at 2.
    change (fold_left (step false) [s] (base h)) with (step false (base h) s).
    by rewrite step_name.
  - rewrite locate_normalize, !locate_eq.
    rewrite isAbsolute_append by done.
    rewrite segments_app, Hpl, fold_left_app.
    change (fold_left (step false) [s] ?S) with (step false S s).
    by rewrite step_name.
Qed.

End Locate.

Section ShaFacts.
Import Sha256.

Lemma compress_length h block : length h = 8%nat -> length (compress h block) = 8%nat.
Proof.
  intros Hh. unfold compress. rewrite length_map, length_combine, Hh. reflexivity.
Qed.

Lemma digest_words_length msg : length (digest_words msg) = 8%nat.
Proof.
  unfold digest_words.
  generalize (chunks 16 (length (words_of_bytes (pad msg))) (words_of_bytes (pad msg))).
  assert (H : length H0 = 8%nat) by reflexivity. revert H.
  generalize H0. intros h Hh l. revert h Hh.
  induction l as [|b l IH]; intros h Hh; simpl; [done|].
  apply IH. by apply compress_length.
Qed.


Lemma hex_digit_is_hex x : is_hex (hex_digit (N.land x 0xF)) = true.
Proof.
  change 0xF with (N.ones 4). rewrite N.land_ones.
  assert (Hlt : x mod 2 ^ 4 < 16) by (apply N.mod_lt; discriminate).
  set (d := x mod 2 ^ 4) in *.
  assert (Hd : d = 0 \/ d = 1 \/ d = 2 \/ d = 3 \/ d = 4 \/ d = 5 \/ d = 6 \/ d = 7
               \/ d = 8 \/ d = 9 \/ d = 10 \/ d = 11 \/ d = 12 \/ d = 13 \/ d = 14
               \/ d = 15) by lia.
  clearbody d.
  repeat (destruct Hd as [->|Hd]; [reflexivity|]). by subst.
Qed.

Lemma hex_word_hex w : Forall (fun c => is_hex c = true) (hex_word w) /\ length (hex_word w) = 8%nat.
Proof.
  unfold hex_word. split; [|reflexivity].
  apply Forall_map. apply Forall_forall. intros i _. apply hex_digit_is_hex.
Qed.

Lemma flat_hex ws :
  Forall (fun c => is_hex c = true) (flat_map hex_word ws)
  /\ length (flat_map hex_word ws) = (8 * length ws)%nat.
Proof.
  induction ws as [|w ws [IH1 IH2]]; [by split|].
  destruct (hex_word_hex w) as [H1 H2].
  change (flat_map hex_word (w :: ws)) with (hex_word w ++ flat_map hex_word ws).
  split.
  - apply Forall_app; by split.
  - rewrite length_app, H2, IH2. simpl length. lia.
Qed.

End ShaFacts.

Section HashName.
Import Path.

Lemma hex_chars_name cs :
  Forall (fun c => is_hex c = true) cs -> (3 <= length cs)%nat ->
  name (string_of_list_ascii cs).
Proof.
  intros Hcs Hlen. repeat split.
  - clear Hlen. induction cs as [|c cs IH]; [reflexivity|].
    inversion Hcs as [|? ? Hc Hcs']; subst. simpl.
    destruct (Ascii.eqb_spec c slash) as [->|_]; [discriminate Hc|].
    by rewrite IH.
  - destruct cs; [simpl in Hlen; lia | discriminate].
  - destruct cs as [|? [|? ?]]; simpl in *; try lia; discriminate.
  - destruct cs as [|? [|? [|? ?]]]; simpl in *; try lia; discriminate.
Qed.

Lemma hexdigest_name s : name (Sha256.hexdigest s).
Proof.
  unfold Sha256.hexdigest.
  destruct (flat_hex (Sha256.digest_words (Sha256.bytes_of_string s))) as [H1 H2].
  apply hex_chars_name; [done|]. rewrite H2, digest_words_length. lia.
Qed.

Lemma hexdigest_length s : String.length (Sha256.hexdigest s) = 64.
Proof.
  unfold Sha256.hexdigest.
  destruct (flat_hex (Sha256.digest_words (Sha256.bytes_of_string s))) as [_ H2].
  rewrite digest_words_length in H2.
  revert H2. generalize (flat_map Sha256.hex_word (Sha256.digest_words (Sha256.bytes_of_string s))).
  intros l. change (8 * 8) with 64. generalize 64. induction l as [|c l IH]; intros n Hn; simpl in *; [done|].
  destruct n; [discriminate|]. f_equal. apply IH. congruence.
Qed.

End HashName.

(** ** File system *)

Section FsFacts.
Import Fs.













End FsFacts.

(** ** The store of a project *)

Section StoreFacts.
Import Store GitService.

Lemma name_literal s :
  Path.segments s = [s] -> (s =? "") = false -> (s =? ".") = false ->
  (s =? "..") = false -> name s.
Proof. intros ? ?%String.eqb_neq ?%String.eqb_neq ?%String.eqb_neq. by repeat split. Qed.

Lemma name_history : name "history". Proof. by apply name_literal. Qed.
Lemma name_tmp : name "tmp". Proof. by apply name_literal. Qed.

Lemma historyLoc_eq h gs :
  historyLoc h gs
  = locate h (Storage.getGlobalGeminiDir h)
    ++ ["history"; Sha256.hexdigest (Storage.targetDir (storage gs))].
Proof.
  unfold historyLoc, Storage.getHistoryDir, Storage.getFilePathHash, Storage.getProjectRoot.
  rewrite locate_join_name by apply hexdigest_name.
  rewrite locate_join_name by apply name_history.
  by rewrite <- app_assoc.
Qed.









Lemma handle_home h gs : Git.home h (handle h gs) = Some (historyLoc h gs).
Proof. reflexivity. Qed.

Lemma setupHandle_git_dir h gs : Git.git_dir h (setupHandle h gs) = metadataLoc h gs.
Proof. reflexivity. Qed.

End StoreFacts.

Section Setup.
Import Store GitService.

Lemma set_files_files w fs : w_files (set_files w fs) = fs. Proof. done. Qed.
Lemma set_files_twice w fs fs' : set_files (set_files w fs) fs' = set_files w fs'.
Proof. done. Qed.
Lemma set_files_same w : set_files w (w_files w) = w. Proof. by destruct w. Qed.


End Setup.

Section SetupRuns.
Import Store GitService.






End SetupRuns.

(** ** [initialize], step by step *)

Section Init.
Import Store GitService.



End Init.

(** ** Re-entry *)

Section Reentry.
Import Store GitService.




End Reentry.

(** ** Directories, the probe, ignore rules, the dedicated configuration *)

Section Layout.
Import Store GitService.

Lemma globalDir_tmp_path h :
  locate h (Storage.getGlobalTempDir h) = locate h (Storage.getGlobalGeminiDir h) ++ ["tmp"].
Proof. apply locate_join_name, name_tmp. Qed.

(** C2.  For every project root the history directory is the global root
    joined with [history] and the fingerprint, the project's temp directory
    is the global root joined with [tmp] and the fingerprint, the fingerprint
    being the SHA-256 hex digest (64 digits) of the project path string.  As
    locations: the entry named by the fingerprint inside [history] (resp.
    [tmp]) inside the global root.  Asking for the history directory returns
    the path and leaves the world, directories included, as it is. *)
Theorem history_and_temp_dir_layout h s :
  let fingerprint := Sha256.hexdigest (Storage.targetDir s) in
  let globalRoot := Storage.getGlobalGeminiDir h in
  Storage.getHistoryDir h s = Path.join [Path.join [globalRoot; "history"]; fingerprint]
  /\ Storage.getProjectTempDir h s = Path.join [Path.join [globalRoot; "tmp"]; fingerprint]
  /\ locate h (Storage.getHistoryDir h s) = locate h globalRoot ++ ["history"; fingerprint]
  /\ locate h (Storage.getProjectTempDir h s) = locate h globalRoot ++ ["tmp"; fingerprint]
  /\ String.length fingerprint = 64
  /\ forall gs w,
       GitService.getHistoryDir gs w
       = (Ok (Storage.getHistoryDir (w_host w) (GitService.storage gs)), w).
Proof.
  intros fingerprint globalRoot. repeat split.
  - apply (historyLoc_eq h (GitService.mk "" s)).
  - unfold Storage.getProjectTempDir, Storage.getFilePathHash, Storage.getProjectRoot.
    rewrite locate_join_name by apply hexdigest_name.
    rewrite globalDir_tmp_path. by rewrite <- app_assoc.
  - apply hexdigest_length.
Qed.

(** C1, as the code has it.  The service built for a project root [p] and a
    storage object [st] keeps [p] resolved against the working directory,
    and keeps [st] as given; the history directory is the one of [st]: the
    fingerprint is the digest of the string [st] was built with, whatever
    [p] is and whatever it resolves to. *)
Theorem fingerprint_of_path_as_given h p st :
  let gs := GitService.new h p st in
  GitService.projectRoot gs = Path.resolve (cwd h) [p]
  /\ GitService.storage gs = st
  /\ forall w,
       GitService.getHistoryDir gs w
       = (Ok (Path.join [Path.join [Storage.getGlobalGeminiDir (w_host w); "history"];
                         Sha256.hexdigest (Storage.targetDir st)]), w).
Proof. by repeat split. Qed.

(** C3.  The availability probe always resolves to a boolean, the engine
    being present or not; when it is absent, [initialize] fails with the
    error that tells to install Git or disable checkpointing, and the world
    is left untouched: no directory is made and no other step is run. *)
Theorem engine_probe_and_gate gs w :
  GitService.verifyGitAvailability gs w = (Ok (w_git_installed w), w)
  /\ (w_git_installed w = false ->
      GitService.initialize gs w
      = (Err (PlainError "Checkpointing is enabled, but Git is not installed. Please install Git or disable checkpointing to continue."), w)).
Proof.
  split.
  - unfold verifyGitAvailability, exec_git_version, bind, ret.
    by destruct (w_git_installed w).
  - intros Hg. unfold initialize, verifyGitAvailability, exec_git_version, bind, ret, throw.
    by rewrite Hg.
Qed.






End Layout.

(** ** Trimming *)

Section Trim.









End Trim.

(** ** The shadow handle *)

Section Handle.
Import Store GitService.






End Handle.

(** ** The current head *)

Section Head.
Import Store GitService.



End Head.

(** ** Snapshots *)

Section Snapshot.
Import Store GitService.




End Snapshot.

(** ** Restore *)

Section Restore.
Import Store GitService.












End Restore.

(** ** The examples, run *)

Section Concrete.
Import Store GitService.

(** A run is settled by its outcome: the world it leaves is its second
    component. *)
Lemma run_outcome {A} (m : M A) (w : world) (r : result A) :
  fst (m w) = r -> m w = (r, snd (m w)).
Proof. intros <-. by destruct (m w). Qed.

(** C1, refuted as stated.  With [/work/app] as working directory the roots
    [.] and [/work/app] resolve to the same directory, and the service built
    with [.] works on [/work/app]; yet the two spellings, given to
    [Storage], have different history directories. *)
Lemma relative_root_other_fingerprint :
  Path.resolve (cwd pony) ["."] = Path.resolve (cwd pony) ["/work/app"]
  /\ GitService.projectRoot (GitService.new pony "." (Storage.new ".")) = "/work/app"
  /\ Storage.getHistoryDir pony (Storage.new ".")
     <> Storage.getHistoryDir pony (Storage.new "/work/app").
Proof.
  split; [reflexivity|]. split; [reflexivity|].
  vm_compute. discriminate.
Qed.

(** C3 at work: a host without the engine. *)
Lemma engine_probe_and_gate_witness :
  GitService.verifyGitAvailability gs0 w_no_git = (Ok false, w_no_git)
  /\ GitService.initialize gs0 w_no_git
     = (Err (PlainError "Checkpointing is enabled, but Git is not installed. Please install Git or disable checkpointing to continue."), w_no_git).
Proof.
  split.
  - exact (proj1 (engine_probe_and_gate gs0 w_no_git)).
  - apply (proj2 (engine_probe_and_gate gs0 w_no_git)). reflexivity.
Defined.



(** A directory in the place of the project's ignore file: the read fails
    with a code other than [ENOENT], and [initialize] fails with it. *)
Example ignore_read_failure_propagates :
  fst (GitService.initialize gs0 w_ignore_dir)
  = Err (initialize_failed
           (NodeError "EISDIR" "read: illegal operation on a directory")).
Proof. vm_compute. reflexivity. Qed.


(** C6, the defect.  The user has a configuration file of their own.
    [initialize] succeeds and the first commit of the shadow store was made
    under the user's configuration, not under the dedicated one; the commit
    of the snapshot that follows was made under the dedicated one. *)
Lemma bootstrap_commit_reads_user_config :
  GitService.initialize gs0 w_alice = (Ok tt, w_alice1)
  /\ w_repos w_alice1 !! metadataLoc pony gs0
     = Some (Repo "main" [Commit "Initial commit" (Some alice_config) ∅] ∅)
  /\ Some alice_config <> Some GitService.gitConfigContent
  /\ GitService.createFileSnapshot literal_ignores gs0 "m1" w_alice1 = (Ok ref2, w_alice2)
  /\ (fun r => map c_config (r_commits r)) <$> w_repos w_alice2 !! metadataLoc pony gs0
     = Some [Some alice_config; Some GitService.gitConfigContent].
Proof.
  split; [apply (run_outcome (GitService.initialize gs0) w_alice); vm_compute; reflexivity|].
  split; [vm_compute; reflexivity|]. split; [discriminate|].
  split; [apply (run_outcome (GitService.createFileSnapshot literal_ignores gs0 "m1") w_alice1);
          vm_compute; reflexivity|].
  vm_compute. reflexivity.
Qed.







End Concrete.

(** ** The scenarios of the checkpoint round trip *)

Section Scenarios.
Import Store GitService.

(** Snapshot, edit, add a file, restore: the edited file has its old
    content again and the added file is gone. *)
Example round_trip :
  fst (restoreProjectFromSnapshot literal_ignores gs0 ref2 w5) = Ok tt
  /\ w_files w5 !! ["work"; "app"; "a.txt"] = Some (File true "v2")
  /\ w_files w5 !! ["work"; "app"; "b.txt"] = Some (File true "new")
  /\ w_files w6 !! ["work"; "app"; "a.txt"] = Some (File true "v1")
  /\ w_files w6 !! ["work"; "app"; "b.txt"] = None.
Proof. split_and!; vm_compute; reflexivity. Qed.

(** A file that the project's ignore file excludes stays out of the
    snapshot; the ignore file itself and the other files are in it, and the
    shadow directory has its copy of the rules. *)
Example ignored_file_not_staged :
  (fun r => Git.head_tree r !! ["work"; "app"; "secret.txt"])
    <$> w_repos w_secret2 !! metadataLoc pony gs0 = Some None
  /\ (fun r => Git.head_tree r !! ["work"; "app"; "a.txt"])
       <$> w_repos w_secret2 !! metadataLoc pony gs0 = Some (Some "v1")
  /\ (fun r => Git.head_tree r !! ["work"; "app"; ".gitignore"])
       <$> w_repos w_secret2 !! metadataLoc pony gs0 = Some (Some "secret.txt")
  /\ w_files w_secret2 !! shadowIgnoreLoc pony gs0 = Some (File true "secret.txt").
Proof. split_and!; vm_compute; reflexivity. Qed.

End Scenarios.
